(** * episode-music-mood: the resolution and aggregation pipeline of main.go

    A shallow embedding of [main.go].  Every Go function of the file is a
    Rocq function of the same name.  The outside world (the configuration
    file, the three HTTP services, the Spotify client) is a record of
    answers, [services], that the functions consult where the Go code calls
    out.  Process exits ([os.Exit] through [returnError], [log.Fatal]) and
    runtime panics are the two abnormal constructors of [outcome].

    [float32] and [float64] are the IEEE 754 binary32 and binary64 formats
    of the Standard Library's [SpecFloat], every operation rounded on its
    own to nearest-even (what the Go compiler emits on amd64; no fused
    multiply-add is assumed). *)

From Stdlib Require Import ZArith List String Ascii Bool Lia.
From Stdlib Require Import Sorting.Permutation.
From Stdlib Require Import Floats.SpecFloat.
Import ListNotations.

Local Open Scope string_scope.
Local Open Scope list_scope.

(** ** Floating point *)

Module F32.

Definition prec : Z := 24.
Definition emax : Z := 128.

Definition float32 : Type := spec_float.

Definition valid (x : float32) : bool := valid_binary prec emax x.

Definition add : float32 -> float32 -> float32 := SFadd prec emax.
Definition sub : float32 -> float32 -> float32 := SFsub prec emax.
Definition mul : float32 -> float32 -> float32 := SFmul prec emax.
Definition div : float32 -> float32 -> float32 := SFdiv prec emax.

(** An integer constant or an [int] converted to [float32]. *)
Definition of_Z (z : Z) : float32 := binary_normalize prec emax z 0 false.

(** [m * 2^e] rounded to [float32]; used for the constant [0.5]. *)
Definition of_scaled (m e : Z) : float32 := binary_normalize prec emax m e false.

(** The [float32] nearest to [n / d]: what decoding a decimal yields. *)
Definition of_ratio (n d : Z) : float32 := div (of_Z n) (of_Z d).

Definition is_nan (x : float32) : bool :=
  match x with S754_nan => true | _ => false end.

Definition is_inf (x : float32) : bool :=
  match x with S754_infinity _ => true | _ => false end.

End F32.

Module F64.

Definition prec : Z := 53.
Definition emax : Z := 1024.

Definition float64 : Type := spec_float.

Definition valid (x : float64) : bool := valid_binary prec emax x.

Definition of_Z (z : Z) : float64 := binary_normalize prec emax z 0 false.

(** The Go conversion [float32(x)] of a [float64]: rounds to nearest-even. *)
Definition to_float32 (x : float64) : F32.float32 :=
  match x with
  | S754_finite s m e => binary_round F32.prec F32.emax s m e
  | _ => x
  end.

(** The Go conversion [float64(x)] of a [float32]: exact. *)
Definition of_float32 (x : F32.float32) : float64 :=
  match x with
  | S754_finite s m e => binary_round prec emax s m e
  | _ => x
  end.

(** [math.IsNaN(f)] is [f != f]. *)
Definition IsNaN (f : float64) : bool := negb (SFeqb f f).

End F64.

Definition float32 : Type := F32.float32.
Definition float64 : Type := F64.float64.

(** ** The types of main.go *)

Record configuration := {
  CertFile : string;
  KeyFile : string;
  SpotifyClientID : string;
  SpotifyClientSecret : string;
  MusicURL : string;
  IBLUrl : string;
  PlaylisterURL : string
}.

Record errorMessage := { Error : string }.

Record version := { ID : string }.

Record episode := { Versions : list version }.

Record iblEpisodesResponse := { Episodes : list episode }.

Record playlisterSegment := { RecordID : string }.

Record playlisterResponse := { Segments : list playlisterSegment }.

Record externalLink := { Type_ : string; Value : string }.

Record musicData := { ExternalLinks : list externalLink }.

Record musicResponse := { Data : musicData }.

(** The two bundles of github.com/zmb3/spotify, with the numeric fields
    [getMood] can reach: [AudioFeatures] holds [float32] fields, the
    track-level summary [AnalysisTrack] of an [AudioAnalysis] holds
    [float64] fields. *)
Module spotify.

Definition ID : Type := string.

Record AudioFeatures := {
  Danceability : float32;
  Energy : float32;
  Liveness : float32;
  Loudness : float32;
  Tempo : float32;
  Valence : float32
}.

Record AnalysisTrack := {
  TrackLoudness : float64;
  TrackTempo : float64
}.

Record AudioAnalysis := { Track : AnalysisTrack }.

End spotify.

Record spotifyTrackData := {
  Features : spotify.AudioFeatures;
  Analysis : spotify.AudioAnalysis
}.

Record mood := {
  ChillFactor : float32;
  HappinessFactor : float32
}.

(** ** Process outcomes *)

(** What [json.Marshal] produced, before it is written as text. *)
Inductive jsonDoc :=
| ErrorObject (e : errorMessage)
| MoodObject (m : mood).

(** One line of standard output: [fmt.Println(string(b))] of a marshalled
    document, or of the nil byte slice. *)
Inductive stdoutLine :=
| Text (j : jsonDoc)
| Blank.

Inductive runtimeError :=
| IndexOutOfRange (index len : nat)
| NilDereference.

(** A computation returns, ends the process with a status after writing
    some lines, or panics. *)
Inductive outcome (A : Type) :=
| Ret (a : A)
| Exit (stdout : list stdoutLine) (status : Z)
| Panic (e : runtimeError).

Arguments Ret {A} a.
Arguments Exit {A} stdout status.
Arguments Panic {A} e.

Definition bind {A B : Type} (c : outcome A) (k : A -> outcome B) : outcome B :=
  match c with
  | Ret a => k a
  | Exit out st => Exit out st
  | Panic e => Panic e
  end.

Notation "x <- c ;; k" := (bind c (fun x => k))
  (at level 61, c at next level, right associativity).
Notation "c ;; k" := (bind c (fun _ => k))
  (at level 61, right associativity).
Notation "' p <- c ;; k" := (bind c (fun p => k))
  (at level 61, p pattern, c at next level, right associativity).

(** A [for _, x := range xs] loop whose body may leave the process. *)
Fixpoint forRange {A S : Type} (body : S -> A -> outcome S) (xs : list A) (s : S)
  : outcome S :=
  match xs with
  | [] => Ret s
  | x :: rest => s' <- body s x ;; forRange body rest s'
  end.

(** [returnError]: marshal the envelope, print it, [os.Exit(1)]. *)
Definition returnError {A : Type} (message : string) : outcome A :=
  let error := {| Error := message |} in
  Exit [Text (ErrorObject error)] 1.

(** [log.Fatal]: writes to standard error only, then [os.Exit(1)]. *)
Definition logFatal {A : Type} : outcome A := Exit [] 1.

(** Slice indexing and pointer dereference, with Go's run-time checks. *)
Definition index {A : Type} (xs : list A) (i : nat) : outcome A :=
  match nth_error xs i with
  | Some x => Ret x
  | None => Panic (IndexOutOfRange i (List.length xs))
  end.

Definition deref {A : Type} (p : option A) : outcome A :=
  match p with
  | Some x => Ret x
  | None => Panic NilDereference
  end.

(** ** The outside world *)

(** Go's [error] values are their messages; [None] is the nil error.
    A failed [http.Get] is [None]; a response is the value that
    [json.Unmarshal] leaves in the target struct (its zero value when the
    body does not parse, since the code drops that error). *)
Record services := {
  GetConf : string + configuration;
  Sprintf : string -> string -> string;
  getEpisodes : string -> option iblEpisodesResponse;
  getSegments : string -> option playlisterResponse;
  LoadX509KeyPair : string -> string -> bool;
  getMusic : string -> option musicResponse;
  Token : string -> string -> option string;
  GetAudioFeatures : spotify.ID -> list (option spotify.AudioFeatures) * option string;
  GetAudioAnalysis : spotify.ID -> option spotify.AudioAnalysis * option string
}.

(** ** The functions of main.go *)

Definition getConfiguration (w : services) : outcome configuration :=
  match GetConf w with
  | inl err => returnError err
  | inr configuration =>
      let values := [CertFile configuration; KeyFile configuration;
                     SpotifyClientID configuration; SpotifyClientSecret configuration;
                     MusicURL configuration; IBLUrl configuration;
                     PlaylisterURL configuration] in
      forRange (fun (_ : unit) val =>
                  let strVal := String.append val (String "010" EmptyString) in
                  if negb (1 <? String.length strVal)%nat
                  then returnError "Config incomplete"
                  else Ret tt) values tt ;;
      Ret configuration
  end.

Definition getRecordIDs (w : services) (versionID : string) : outcome (list string) :=
  configuration <- getConfiguration w ;;
  let url := Sprintf w (PlaylisterURL configuration) versionID in
  match getSegments w url with
  | None => returnError "Failed to get Record IDs"
  | Some res =>
      let recordIds :=
        fold_left (fun recordIds segment => recordIds ++ [RecordID segment])
                  (Segments res) [] in
      Ret recordIds
  end.

Definition getVersionID (w : services) (episodeID : string)
  : outcome (string * option string) :=
  configuration <- getConfiguration w ;;
  let url := Sprintf w (IBLUrl configuration) episodeID in
  match getEpisodes w url with
  | None => returnError "Failed to get Episode Information"
  | Some epResp1 =>
      if (List.length (Episodes epResp1) <? 1)%nat
      then Ret ("nil", Some "Episode not found")
      else
        ep0 <- index (Episodes epResp1) 0 ;;
        if (List.length (Versions ep0) <? 1)%nat
        then Ret ("nil", Some "No Version available")
        else
          v0 <- index (Versions ep0) 0 ;;
          Ret (ID v0, None)
  end.

Definition getExternalLinks (w : services) (recordID : string)
  : outcome (list externalLink) :=
  configuration <- getConfiguration w ;;
  let url := Sprintf w (MusicURL configuration) recordID in
  if negb (LoadX509KeyPair w (CertFile configuration) (KeyFile configuration))
  then logFatal
  else
    match getMusic w url with
    | None => returnError "Failed to get External Links"
    | Some musResp1 => Ret (ExternalLinks (Data musResp1))
    end.

(** Lines 188 to 196 of [getSpotifyData]: the body of the fetch loop.  Both
    errors are dropped and both pointers are dereferenced. *)
Definition fetchTrack (w : services) (tracks : list spotifyTrackData)
  (trackID : spotify.ID) : outcome (list spotifyTrackData) :=
  let '(featurePointer, _) := GetAudioFeatures w trackID in
  let '(analysisPointer, _) := GetAudioAnalysis w trackID in
  analysis <- deref analysisPointer ;;
  feature0 <- index featurePointer 0 ;;
  features <- deref feature0 ;;
  let track := {| Analysis := analysis; Features := features |} in
  Ret (tracks ++ [track]).

Definition getSpotifyData (w : services) (trackIDs : list spotify.ID)
  : outcome (list spotifyTrackData) :=
  configuration <- getConfiguration w ;;
  match Token w (SpotifyClientID configuration) (SpotifyClientSecret configuration) with
  | Some err => returnError (String.append "couldn't get token: " err)
  | None => forRange (fetchTrack w) trackIDs []
  end.

(** The untyped constants of [getMood], converted to [float32]. *)
Definition const_5 : float32 := F32.of_Z 5.
Definition const_0_5 : float32 := F32.of_scaled 1 (-1).
Definition const_120 : float32 := F32.of_Z 120.
Definition const_30 : float32 := F32.of_Z 30.

(** The body of the first loop of [getMood], for one track. *)
Definition trackMood (track : spotifyTrackData) : mood :=
  let trackAnalysis := spotify.Track (Analysis track) in
  let trackFeatures := Features track in
  let happiness :=
    F32.mul (F32.mul const_5 (F32.sub (spotify.Valence trackFeatures) const_0_5))
            (F32.mul (F32.mul (spotify.Danceability trackFeatures)
                              (spotify.Energy trackFeatures))
                     (spotify.Liveness trackFeatures)) in
  let chillFactor :=
    F32.mul (F32.div (F64.to_float32 (spotify.TrackTempo trackAnalysis)) const_120)
            (F32.div (F32.add (spotify.Loudness trackFeatures) const_30) const_30) in
  {| HappinessFactor := happiness; ChillFactor := chillFactor |}.

(** The first loop of [getMood]: the slice [moods]. *)
Definition trackMoods (tracks : list spotifyTrackData) : list mood :=
  fold_left (fun moods track => moods ++ [trackMood track]) tracks [].

(** The second loop of [getMood]: ([totalHappiness], [totalChillFactor]). *)
Definition totals (moods : list mood) : float32 * float32 :=
  fold_left (fun '(totalHappiness, totalChillFactor) mood =>
               (F32.add totalHappiness (HappinessFactor mood),
                F32.add totalChillFactor (ChillFactor mood)))
            moods (F32.of_Z 0, F32.of_Z 0).

Definition getMood (tracks : list spotifyTrackData) : mood :=
  let moods := trackMoods tracks in
  let '(totalHappiness, totalChillFactor) := totals moods in
  let totalMoods := F32.of_Z (Z.of_nat (List.length moods)) in
  {| HappinessFactor := F32.div totalHappiness totalMoods;
     ChillFactor := F32.div totalChillFactor totalMoods |}.

(** [strings.Split(s, ":")]: the substrings between the colons, one more
    than there are colons. *)
Fixpoint Split (s : string) : list string :=
  match s with
  | EmptyString => [EmptyString]
  | String c rest =>
      if Ascii.eqb c ":" then EmptyString :: Split rest
      else match Split rest with
           | seg :: segs => String c seg :: segs
           | [] => [String c EmptyString]
           end
  end.

(** Lines 263 to 267 of [main]: the body of the selection loop. *)
Definition selectLink (spotifyIDs : list spotify.ID) (externalLink : externalLink)
  : outcome (list spotify.ID) :=
  if String.eqb (Type_ externalLink) "SPOTIFY" then
    let spotifyIDSegments := Split (Value externalLink) in
    spotifyTrackID <- index spotifyIDSegments 2 ;;
    Ret (spotifyIDs ++ [spotifyTrackID])
  else Ret spotifyIDs.

(** Lines 260 to 268 of [main]: the Spotify track IDs of the links. *)
Definition selectSpotifyIDs (externalLinks : list externalLink)
  : outcome (list spotify.ID) :=
  forRange selectLink externalLinks [].

(** [json.Marshal] of a [mood].  encoding/json encodes a float field as a
    JSON number and rejects NaN and the infinities, which JSON cannot
    write: Marshal then returns nil bytes and an UnsupportedValueError.
    [main] keeps the bytes and drops the error. *)
Definition jsonMarshal (m : mood) : option jsonDoc * option string :=
  if F32.is_nan (ChillFactor m) || F32.is_inf (ChillFactor m)
     || F32.is_nan (HappinessFactor m) || F32.is_inf (HappinessFactor m)
  then (None, Some "json: unsupported value")
  else (Some (MoodObject m), None).

(** [fmt.Println(string(b))]. *)
Definition Println (b : option jsonDoc) : stdoutLine :=
  match b with
  | Some j => Text j
  | None => Blank
  end.

(** Lines 272 to 277 of [main]: marshal, guard, print; the process then
    ends with status 0. *)
Definition printMood (mood : mood) : outcome unit :=
  let '(moodJSON, _) := jsonMarshal mood in
  if F64.IsNaN (F64.of_float32 (ChillFactor mood))
  then returnError "No mood data available"
  else Exit [Println moodJSON] 0.

(** [main], on [os.Args]. *)
Definition main (w : services) (Args : list string) : outcome unit :=
  (if negb (List.length Args =? 2)%nat
   then returnError "Invalid number of arguments" else Ret tt) ;;
  episodeID <- index Args 1 ;;
  '(versionID, err) <- getVersionID w episodeID ;;
  match err with Some e => returnError e | None => Ret tt end ;;
  recordIDs <- getRecordIDs w versionID ;;
  externalLinks <-
    forRange (fun externalLinks recordID =>
                externalLinksForRecord <- getExternalLinks w recordID ;;
                Ret (fold_left (fun externalLinks externalLink =>
                                  externalLinks ++ [externalLink])
                               externalLinksForRecord externalLinks))
             recordIDs [] ;;
  spotifyIDs <- selectSpotifyIDs externalLinks ;;
  spotifyFeatures <- getSpotifyData w spotifyIDs ;;
  let mood := getMood spotifyFeatures in
  printMood mood.

(** ** The formulas as the specification words them *)

Declare Scope f32_scope.
Delimit Scope f32_scope with f32.
Notation "x + y" := (F32.add x y) : f32_scope.
Notation "x - y" := (F32.sub x y) : f32_scope.
Notation "x * y" := (F32.mul x y) : f32_scope.
Notation "x / y" := (F32.div x y) : f32_scope.

Definition spec_happiness (valence danceability energy liveness : float32) : float32 :=
  (F32.of_Z 5 * (valence - F32.of_ratio 1 2) * (danceability * energy * liveness))%f32.

Definition spec_chillFactor (tempo loudness : float32) : float32 :=
  ((tempo / F32.of_Z 120) * ((loudness + F32.of_Z 30) / F32.of_Z 30))%f32.

(** The mood pair of one track, its inputs taken where the specification
    says: tempo from the analysis bundle's track-level summary, the rest
    from the features bundle. *)
Definition spec_trackMood (track : spotifyTrackData) : mood :=
  {| HappinessFactor :=
       spec_happiness (spotify.Valence (Features track))
                      (spotify.Danceability (Features track))
                      (spotify.Energy (Features track))
                      (spotify.Liveness (Features track));
     ChillFactor :=
       spec_chillFactor (F64.to_float32 (spotify.TrackTempo (spotify.Track (Analysis track))))
                        (spotify.Loudness (Features track)) |}.

(** The error values of the specification's taxonomy, as the code words them. *)
Definition NotFound : string := "Episode not found".
Definition NoVersion : string := "No Version available".
Definition NoMoodData : string := "No mood data available".

(** [getVersionID] returned the error [msg]. *)
Definition failsWith (r : outcome (string * option string)) (msg : string) : Prop :=
  exists s, r = Ret (s, Some msg).

Definition isSpotify (l : externalLink) : bool := String.eqb (Type_ l) "SPOTIFY".

(** The third colon-delimited segment of a link's value. *)
Definition thirdSegment (l : externalLink) : string :=
  nth 2 (Split (Value l)) EmptyString.

(** ** Concrete worlds *)

(** [fmt.Sprintf] for a template with one [%s] verb. *)
Fixpoint sprintf_s (format arg : string) : string :=
  match format with
  | EmptyString => EmptyString
  | String c rest =>
      match rest with
      | String c' rest' =>
          if (Ascii.eqb c "%" && Ascii.eqb c' "s")%bool
          then String.append arg rest'
          else String c (sprintf_s rest arg)
      | EmptyString => String c EmptyString
      end
  end.

Definition mkTrack (valence danceability energy liveness loudness : float32)
  (tempo : float64) : spotifyTrackData :=
  {| Features := {| spotify.Danceability := danceability;
                    spotify.Energy := energy;
                    spotify.Liveness := liveness;
                    spotify.Loudness := loudness;
                    spotify.Tempo := F64.to_float32 tempo;
                    spotify.Valence := valence |};
     Analysis := {| spotify.Track := {| spotify.TrackLoudness := F64.of_float32 loudness;
                                        spotify.TrackTempo := tempo |} |} |}.

(** The track of the specification's end-to-end scenario. *)
Definition tid1 : spotifyTrackData :=
  mkTrack (F32.of_ratio 8 10) (F32.of_ratio 6 10) (F32.of_ratio 7 10)
          (F32.of_ratio 5 10) (F32.of_Z (-10)) (F64.of_Z 130).

Definition tid2 : spotifyTrackData :=
  mkTrack (F32.of_ratio 3 10) (F32.of_ratio 9 10) (F32.of_ratio 4 10)
          (F32.of_ratio 1 10) (F32.of_Z (-5)) (F64.of_Z 100).

Definition tid3 : spotifyTrackData :=
  mkTrack (F32.of_ratio 6 10) (F32.of_ratio 5 10) (F32.of_ratio 9 10)
          (F32.of_ratio 3 10) (F32.of_Z (-7)) (F64.of_Z 97).

(** A track with finite features whose happiness is not a number:
    [danceability * energy] overflows and meets [5 * (0.5 - 0.5) = 0]. *)
Definition tidHuge : spotifyTrackData :=
  mkTrack (F32.of_ratio 1 2) (F32.of_scaled 1 100) (F32.of_scaled 1 100)
          (F32.of_Z 1) (F32.of_Z (-10)) (F64.of_Z 130).

Definition scenarioConf : configuration :=
  {| CertFile := "cert.pem"; KeyFile := "key.pem";
     SpotifyClientID := "id"; SpotifyClientSecret := "secret";
     MusicURL := "https://music/%s";
     IBLUrl := "http://ibl/episodes/%s";
     PlaylisterURL := "http://playlister/%s" |}.

(** The end-to-end scenario: one episode with version vpid1, one segment
    with record rec1, one SPOTIFY link to tid1.  The Spotify client knows
    tid1, tid2 and tid3 and fails on any other track. *)
Definition scenario : services :=
  {| GetConf := inr scenarioConf;
     Sprintf := sprintf_s;
     getEpisodes := fun url =>
       if String.eqb url "http://ibl/episodes/epid1"
       then Some {| Episodes := [ {| Versions := [ {| ID := "vpid1" |} ] |} ] |}
       else Some {| Episodes := [] |};
     getSegments := fun url =>
       if String.eqb url "http://playlister/vpid1"
       then Some {| Segments := [ {| RecordID := "rec1" |} ] |}
       else Some {| Segments := [] |};
     LoadX509KeyPair := fun _ _ => true;
     getMusic := fun url =>
       if String.eqb url "https://music/rec1"
       then Some {| Data := {| ExternalLinks :=
                      [ {| Type_ := "SPOTIFY"; Value := "spotify:track:tid1" |} ] |} |}
       else Some {| Data := {| ExternalLinks := [] |} |};
     Token := fun _ _ => None;
     GetAudioFeatures := fun trackID =>
       if String.eqb trackID "tid1" then ([Some (Features tid1)], None)
       else if String.eqb trackID "tid2" then ([Some (Features tid2)], None)
       else if String.eqb trackID "tid3" then ([Some (Features tid3)], None)
       else ([], Some "spotify: not found");
     GetAudioAnalysis := fun trackID =>
       if String.eqb trackID "tid1" then (Some (Analysis tid1), None)
       else if String.eqb trackID "tid2" then (Some (Analysis tid2), None)
       else if String.eqb trackID "tid3" then (Some (Analysis tid3), None)
       else (None, Some "spotify: not found") |}.

(** The scenario with the metadata service answering [links] for every record. *)
Definition withLinks (w : services) (links : list externalLink) : services :=
  {| GetConf := GetConf w;
     Sprintf := Sprintf w;
     getEpisodes := getEpisodes w;
     getSegments := getSegments w;
     LoadX509KeyPair := LoadX509KeyPair w;
     getMusic := fun _ => Some {| Data := {| ExternalLinks := links |} |};
     Token := Token w;
     GetAudioFeatures := GetAudioFeatures w;
     GetAudioAnalysis := GetAudioAnalysis w |}.

(** A SPOTIFY link whose value has two colon-delimited segments. *)
Definition shortLink : externalLink :=
  {| Type_ := "SPOTIFY"; Value := "spotify:track" |}.

Definition linkTo (trackID : string) : externalLink :=
  {| Type_ := "SPOTIFY"; Value := String.append "spotify:track:" trackID |}.

(** The number of colons of a string. *)
Fixpoint colons (s : string) : nat :=
  match s with
  | EmptyString => 0
  | String c rest => if Ascii.eqb c ":" then S (colons rest) else colons rest
  end.

(** [strings.Join(segs, ":")]. *)
Fixpoint Join (segs : list string) : string :=
  match segs with
  | [] => EmptyString
  | [seg] => seg
  | seg :: rest => String.append seg (String ":" (Join rest))
  end.

(** Every numeric field of a track is a [float32] (the tempo of the
    analysis a [float64]) of the format, not an arbitrary mantissa. *)
Definition validTrack (track : spotifyTrackData) : bool :=
  F32.valid (spotify.Danceability (Features track))
  && F32.valid (spotify.Energy (Features track))
  && F32.valid (spotify.Liveness (Features track))
  && F32.valid (spotify.Loudness (Features track))
  && F32.valid (spotify.Tempo (Features track))
  && F32.valid (spotify.Valence (Features track))
  && F64.valid (spotify.TrackLoudness (spotify.Track (Analysis track)))
  && F64.valid (spotify.TrackTempo (spotify.Track (Analysis track))).

(** ** Vocabulary of the further properties *)

(** No field of the configuration is the empty string. *)
Definition complete (c : configuration) : Prop :=
  CertFile c <> "" /\ KeyFile c <> "" /\ SpotifyClientID c <> ""
  /\ SpotifyClientSecret c <> "" /\ MusicURL c <> "" /\ IBLUrl c <> ""
  /\ PlaylisterURL c <> "".

(** The ways a stage may end the process: [log.Fatal], or the error
    envelope, both with status 1. *)
Definition errorExit (out : list stdoutLine) (status : Z) : Prop :=
  status = 1%Z
  /\ (out = [] \/ exists msg, out = [Text (ErrorObject {| Error := msg |})]).

(** The run-time errors the file can raise: a nil pointer from a fetch, no
    first feature bundle, or a link value with fewer than three segments. *)
Definition knownPanic (e : runtimeError) : Prop :=
  e = NilDereference \/ e = IndexOutOfRange 0 0
  \/ exists n, n < 3 /\ e = IndexOutOfRange 2 n.

Definition stageOutcome {A : Type} (o : outcome A) : Prop :=
  match o with
  | Ret _ => True
  | Exit out status => errorExit out status
  | Panic e => knownPanic e
  end.

Definition panicFree {A : Type} (o : outcome A) : Prop :=
  match o with
  | Panic _ => False
  | _ => True
  end.

(** A [float32] that JSON can write. *)
Definition isNumber (x : float32) : bool :=
  negb (F32.is_nan x) && negb (F32.is_inf x).

(** What the metadata service holds for a record, under configuration [conf]. *)
Definition linksFor (w : services) (conf : configuration) (recordID : string)
  : list externalLink :=
  match getMusic w (Sprintf w (MusicURL conf) recordID) with
  | Some musResp1 => ExternalLinks (Data musResp1)
  | None => []
  end.

(** The track data of an ID when both fetches gave what [getSpotifyData]
    dereferences: a non-nil analysis and a non-nil first feature bundle. *)
Definition fetched (w : services) (trackID : spotify.ID) : option spotifyTrackData :=
  match fst (GetAudioAnalysis w trackID), fst (GetAudioFeatures w trackID) with
  | Some analysis, Some features :: _ =>
      Some {| Features := features; Analysis := analysis |}
  | _, _ => None
  end.

(** The tracks of a list of IDs, when every one is fetched. *)
Fixpoint fetchedAll (w : services) (trackIDs : list spotify.ID)
  : option (list spotifyTrackData) :=
  match trackIDs with
  | [] => Some []
  | trackID :: rest =>
      match fetched w trackID, fetchedAll w rest with
      | Some track, Some tracks => Some (track :: tracks)
      | _, _ => None
      end
  end.

(** The inputs [getMood] reads from a track. *)
Definition sameMoodInputs (t t' : spotifyTrackData) : Prop :=
  spotify.Valence (Features t) = spotify.Valence (Features t')
  /\ spotify.Danceability (Features t) = spotify.Danceability (Features t')
  /\ spotify.Energy (Features t) = spotify.Energy (Features t')
  /\ spotify.Liveness (Features t) = spotify.Liveness (Features t')
  /\ spotify.Loudness (Features t) = spotify.Loudness (Features t')
  /\ spotify.TrackTempo (spotify.Track (Analysis t))
     = spotify.TrackTempo (spotify.Track (Analysis t')).

(** What a run of [main] may end in. *)
Definition mainOutcome (o : outcome unit) : Prop :=
  match o with
  | Ret _ => False
  | Panic e => knownPanic e
  | Exit out status =>
      errorExit out status
      \/ (status = 0%Z
          /\ (out = [Blank]
              \/ exists m, out = [Text (MoodObject m)]
                           /\ isNumber (ChillFactor m) = true
                           /\ isNumber (HappinessFactor m) = true))
  end.

(** A world whose TLS key pair does not load. *)
Definition withoutKeyPair (w : services) : services :=
  {| GetConf := GetConf w;
     Sprintf := Sprintf w;
     getEpisodes := getEpisodes w;
     getSegments := getSegments w;
     LoadX509KeyPair := fun _ _ => false;
     getMusic := getMusic w;
     Token := Token w;
     GetAudioFeatures := GetAudioFeatures w;
     GetAudioAnalysis := GetAudioAnalysis w |}.

(** A world whose token request fails with [err]. *)
Definition withTokenError (w : services) (err : string) : services :=
  {| GetConf := GetConf w;
     Sprintf := Sprintf w;
     getEpisodes := getEpisodes w;
     getSegments := getSegments w;
     LoadX509KeyPair := LoadX509KeyPair w;
     getMusic := getMusic w;
     Token := fun _ _ => Some err;
     GetAudioFeatures := GetAudioFeatures w;
     GetAudioAnalysis := GetAudioAnalysis w |}.

(** A link of another type. *)
Definition isrcLink : externalLink :=
  {| Type_ := "ISRC"; Value := "GBUM71029604" |}.

(** A track with finite inputs whose chill factor is not a number: the
    tempo 2^200 overflows [float32], and loudness + 30 is zero. *)
Definition tidFast : spotifyTrackData :=
  {| Features := {| spotify.Danceability := F32.of_ratio 6 10;
                    spotify.Energy := F32.of_ratio 7 10;
                    spotify.Liveness := F32.of_ratio 5 10;
                    spotify.Loudness := F32.of_Z (-30);
                    spotify.Tempo := F32.of_Z 130;
                    spotify.Valence := F32.of_ratio 8 10 |};
     Analysis := {| spotify.Track :=
                      {| spotify.TrackLoudness := F64.of_Z (-30);
                         spotify.TrackTempo := binary_normalize F64.prec F64.emax 1 200 false |} |} |}.


(** * Properties *)

(** The end-to-end scenario of the specification: happiness is the
    [float32] nearest to 0.315, and the chill factor lies within 1e-4 of
    0.7222. *)
Example scenario_end_to_end :
  exists m, main scenario ["episode-music-mood"; "epid1"] = Exit [Text (MoodObject m)] 0
    /\ HappinessFactor m = F32.of_ratio 315 1000
    /\ SFltb (F32.of_ratio 7221 10000) (ChillFactor m) = true
    /\ SFltb (ChillFactor m) (F32.of_ratio 7223 10000) = true.
Proof. eexists. repeat split; vm_compute; reflexivity. Qed.

(** The end-to-end failure scenario: no episode, the error envelope, status 1. *)
Example scenario_not_found :
  main scenario ["episode-music-mood"; "other"]
  = Exit [Text (ErrorObject {| Error := "Episode not found" |})] 1.
Proof. vm_compute. reflexivity. Qed.

(** ** Loops that append *)

Lemma fold_left_snoc {A B : Type} (f : A -> B) (xs : list A) (acc : list B) :
  fold_left (fun acc x => acc ++ [f x]) xs acc = acc ++ map f xs.
Proof.
  revert acc. induction xs as [|x xs IH]; intros acc; simpl.
  - now rewrite app_nil_r.
  - rewrite IH, <- app_assoc. reflexivity.
Qed.

Lemma const_0_5_is_half : const_0_5 = F32.of_ratio 1 2.
Proof. vm_compute. reflexivity. Qed.

Lemma trackMood_spec (track : spotifyTrackData) : trackMood track = spec_trackMood track.
Proof.
  unfold trackMood, spec_trackMood, spec_happiness, spec_chillFactor.
  rewrite const_0_5_is_half. reflexivity.
Qed.

(** C1: in [getMood], the mood pair of every track is
    happiness = 5 * (valence - 0.5) * (danceability * energy * liveness) and
    chillFactor = (tempo / 120) * ((loudness + 30) / 30), with tempo read
    from the analysis bundle's track-level summary (converted to float32)
    and the other five inputs read from the features bundle; the slice the
    averages are taken over holds exactly these pairs, in track order. *)
Theorem getMood_per_track_formula (tracks : list spotifyTrackData) :
  trackMoods tracks = map spec_trackMood tracks
  /\ getMood tracks
     = (let moods := map spec_trackMood tracks in
        {| HappinessFactor :=
             F32.div (fst (totals moods)) (F32.of_Z (Z.of_nat (List.length moods)));
           ChillFactor :=
             F32.div (snd (totals moods)) (F32.of_Z (Z.of_nat (List.length moods))) |}).
Proof.
  assert (E : trackMoods tracks = map spec_trackMood tracks).
  { unfold trackMoods. rewrite fold_left_snoc. simpl.
    apply map_ext. exact trackMood_spec. }
  split; [exact E|].
  unfold getMood. rewrite E. cbv zeta.
  destruct (totals (map spec_trackMood tracks)) as [h c]. reflexivity.
Qed.

(** ** VersionResolver *)

(** C6: when the lookup answers with at least one episode whose first
    episode has at least one version, [getVersionID] returns the ID of the
    first version of the first episode and no error, whatever other
    episodes and versions follow. *)
Theorem getVersionID_first_version
  (w : services) (episodeID : string) (conf : configuration)
  (resp : iblEpisodesResponse) (ep : episode) (eps : list episode)
  (v : version) (vs : list version)
  (Hconf : getConfiguration w = Ret conf)
  (Hget : getEpisodes w (Sprintf w (IBLUrl conf) episodeID) = Some resp)
  (Heps : Episodes resp = ep :: eps)
  (Hvs : Versions ep = v :: vs) :
  getVersionID w episodeID = Ret (ID v, None).
Proof.
  unfold getVersionID. rewrite Hconf. simpl. rewrite Hget, Heps. simpl.
  rewrite Hvs. reflexivity.
Qed.

Lemma getVersionID_first_version_witness :
  getVersionID scenario "epid1" = Ret ("vpid1", None).
Proof.
  apply (getVersionID_first_version scenario "epid1" scenarioConf
           {| Episodes := [ {| Versions := [ {| ID := "vpid1" |} ] |} ] |}
           {| Versions := [ {| ID := "vpid1" |} ] |} []
           {| ID := "vpid1" |} []); reflexivity.
Defined.

(** C7: given a lookup response, [getVersionID] fails with NotFound exactly
    when the episode list is empty, and with NoVersion exactly when the
    list is not empty and its first episode has no version. *)
Theorem getVersionID_errors
  (w : services) (episodeID : string) (conf : configuration)
  (resp : iblEpisodesResponse)
  (Hconf : getConfiguration w = Ret conf)
  (Hget : getEpisodes w (Sprintf w (IBLUrl conf) episodeID) = Some resp) :
  (failsWith (getVersionID w episodeID) NotFound <-> Episodes resp = [])
  /\ (failsWith (getVersionID w episodeID) NoVersion
      <-> exists ep eps, Episodes resp = ep :: eps /\ Versions ep = []).
Proof.
  unfold failsWith, getVersionID. rewrite Hconf. simpl. rewrite Hget.
  destruct (Episodes resp) as [|ep eps]; simpl.
  - split; split.
    + reflexivity.
    + intros _. now exists "nil".
    + intros [s H]. discriminate H.
    + intros (ep & eps & H & _). discriminate H.
  - destruct (Versions ep) as [|v vs] eqn:Hvs; simpl.
    + split; split.
      * intros [s H]. discriminate H.
      * discriminate.
      * intros _. now exists ep, eps.
      * intros _. now exists "nil".
    + split; split.
      * intros [s H]. discriminate H.
      * discriminate.
      * intros [s H]. discriminate H.
      * intros (ep' & eps' & H & Hv). injection H as -> _. congruence.
Qed.

Lemma getVersionID_errors_witness :
  (failsWith (getVersionID scenario "other") NotFound
   <-> Episodes {| Episodes := [] |} = [])
  /\ (failsWith (getVersionID scenario "other") NoVersion
      <-> exists ep eps, Episodes {| Episodes := [] |} = ep :: eps /\ Versions ep = []).
Proof.
  apply (getVersionID_errors scenario "other" scenarioConf {| Episodes := [] |});
    reflexivity.
Defined.

(** ** RecordResolver *)

(** C9: given a segment-mapping response, [getRecordIDs] returns the
    record ID of every segment in response order; a response without
    segments gives the empty sequence, not an error. *)
Theorem getRecordIDs_all_in_order
  (w : services) (versionID : string) (conf : configuration)
  (res : playlisterResponse)
  (Hconf : getConfiguration w = Ret conf)
  (Hget : getSegments w (Sprintf w (PlaylisterURL conf) versionID) = Some res) :
  getRecordIDs w versionID = Ret (map RecordID (Segments res))
  /\ (Segments res = [] -> getRecordIDs w versionID = Ret []).
Proof.
  assert (E : getRecordIDs w versionID = Ret (map RecordID (Segments res))).
  { unfold getRecordIDs. rewrite Hconf. simpl. rewrite Hget.
    now rewrite fold_left_snoc. }
  split; [exact E|]. intros Hnil. rewrite E, Hnil. reflexivity.
Qed.

Lemma getRecordIDs_all_in_order_witness :
  getRecordIDs scenario "vpid1" = Ret ["rec1"]
  /\ (Segments {| Segments := [ {| RecordID := "rec1" |} ] |} = []
      -> getRecordIDs scenario "vpid1" = Ret []).
Proof.
  apply (getRecordIDs_all_in_order scenario "vpid1" scenarioConf
           {| Segments := [ {| RecordID := "rec1" |} ] |}); reflexivity.
Defined.

Example getRecordIDs_empty_response : getRecordIDs scenario "other" = Ret [].
Proof. reflexivity. Qed.

(** ** TrackSelector *)

Lemma Split_length (s : string) : List.length (Split s) = S (colons s).
Proof.
  induction s as [|c rest IH]; simpl; [reflexivity|].
  destruct (Ascii.eqb c ":"); simpl.
  - now rewrite IH.
  - destruct (Split rest) as [|seg segs]; [discriminate IH|exact IH].
Qed.

Lemma Join_Split (s : string) : Join (Split s) = s.
Proof.
  induction s as [|c rest IH]; simpl; [reflexivity|].
  destruct (Ascii.eqb c ":") eqn:Ec.
  - apply Ascii.eqb_eq in Ec. subst c.
    pose proof (Split_length rest) as Hl.
    destruct (Split rest) as [|seg segs]; [discriminate Hl|].
    cbn [Join]. cbn [Join] in IH. now rewrite IH.
  - pose proof (Split_length rest) as Hl.
    destruct (Split rest) as [|seg segs]; [discriminate Hl|].
    destruct segs as [|seg' segs]; cbn [Join] in *; simpl; now rewrite <- IH.
Qed.

Lemma index_in_range {A : Type} (xs : list A) (i : nat) (d : A) :
  i < List.length xs -> index xs i = Ret (nth i xs d).
Proof.
  intros H. unfold index. now rewrite (nth_error_nth' xs d H).
Qed.

Lemma index_out_of_range {A : Type} (xs : list A) (i : nat) :
  List.length xs <= i -> index xs i = Panic (IndexOutOfRange i (List.length xs)).
Proof.
  intros H. unfold index. apply nth_error_None in H. now rewrite H.
Qed.

Lemma isSpotify_iff (l : externalLink) : isSpotify l = true <-> Type_ l = "SPOTIFY".
Proof. apply String.eqb_eq. Qed.

Lemma count_spotify (links : list externalLink) :
  List.length (filter isSpotify links)
  = count_occ string_dec (map Type_ links) "SPOTIFY".
Proof.
  induction links as [|l links IH]; simpl; [reflexivity|].
  destruct (isSpotify l) eqn:E.
  - apply isSpotify_iff in E. rewrite E. simpl.
    destruct (string_dec "SPOTIFY" "SPOTIFY"); [now rewrite IH|congruence].
  - destruct (string_dec (Type_ l) "SPOTIFY") as [E'|_]; [|exact IH].
    apply isSpotify_iff in E'. congruence.
Qed.

(** The selection loop from any accumulated prefix. *)
Lemma selection_loop (links : list externalLink) (acc : list spotify.ID) :
  Forall (fun l => Type_ l = "SPOTIFY" -> 3 <= List.length (Split (Value l))) links ->
  forRange selectLink links acc
  = Ret (acc ++ map thirdSegment (filter isSpotify links)).
Proof.
  intros H. revert acc.
  induction H as [|l links Hl _ IH]; intros acc; simpl.
  - now rewrite app_nil_r.
  - unfold isSpotify at 1, selectLink at 1.
    destruct (String.eqb (Type_ l) "SPOTIFY") eqn:E; simpl.
    + apply String.eqb_eq in E.
      rewrite (index_in_range _ 2 EmptyString) by (specialize (Hl E); lia).
      simpl. rewrite IH, <- app_assoc. reflexivity.
    + apply IH.
Qed.

(** C4: when every SPOTIFY link has at least three colon-delimited
    segments, the selection returns as many track IDs as there are links
    whose type is exactly SPOTIFY, each the third segment of its link, in
    input order and with duplicates kept. *)
Theorem selectSpotifyIDs_well_formed (externalLinks : list externalLink)
  (H : Forall (fun l => Type_ l = "SPOTIFY" -> 3 <= List.length (Split (Value l)))
              externalLinks) :
  selectSpotifyIDs externalLinks
  = Ret (map thirdSegment (filter isSpotify externalLinks))
  /\ List.length (map thirdSegment (filter isSpotify externalLinks))
     = count_occ string_dec (map Type_ externalLinks) "SPOTIFY".
Proof.
  split.
  - unfold selectSpotifyIDs. now rewrite selection_loop.
  - rewrite length_map. apply count_spotify.
Qed.

Lemma selectSpotifyIDs_well_formed_witness :
  selectSpotifyIDs [linkTo "tid1"; {| Type_ := "spotify"; Value := "a:b:c" |};
                    {| Type_ := "ISRC"; Value := "x" |};
                    linkTo "tid2"; linkTo "tid1"]
  = Ret ["tid1"; "tid2"; "tid1"]
  /\ 3 = 3.
Proof.
  apply (selectSpotifyIDs_well_formed
           [linkTo "tid1"; {| Type_ := "spotify"; Value := "a:b:c" |};
            {| Type_ := "ISRC"; Value := "x" |};
            linkTo "tid2"; linkTo "tid1"]).
  repeat constructor; simpl; try discriminate; lia.
Defined.

(** A SPOTIFY link with fewer than three segments makes the selection
    panic: no error value is ever produced on that path. *)
Lemma short_link_panics (externalLinks : list externalLink) (acc : list spotify.ID) :
  Exists (fun l => Type_ l = "SPOTIFY" /\ List.length (Split (Value l)) < 3) externalLinks ->
  exists n, n < 3 /\ forRange selectLink externalLinks acc = Panic (IndexOutOfRange 2 n).
Proof.
  revert acc.
  induction externalLinks as [|l links IH]; intros acc Hex.
  - inversion Hex.
  - simpl. unfold selectLink at 1. destruct (String.eqb (Type_ l) "SPOTIFY") eqn:E; simpl.
    + destruct (Nat.lt_ge_cases (List.length (Split (Value l))) 3) as [Hlt|Hge].
      * exists (List.length (Split (Value l))). split; [exact Hlt|].
        rewrite index_out_of_range by lia. reflexivity.
      * rewrite (index_in_range _ 2 EmptyString) by lia. simpl.
        apply IH. inversion Hex as [? ? [_ Hl]|]; subst; [lia|assumption].
    + apply IH. inversion Hex as [? ? [Ht _]|]; subst; [|assumption].
      apply String.eqb_neq in E. contradiction.
Qed.

(** C3: on a SPOTIFY link with two segments the selection does not fail
    with a MalformedLink error: it indexes out of range and the process
    panics, in the selection alone and in [main]. *)
Theorem selectSpotifyIDs_short_link :
  List.length (Split (Value shortLink)) = 2
  /\ selectSpotifyIDs [shortLink] = Panic (IndexOutOfRange 2 2)
  /\ main (withLinks scenario [shortLink]) ["episode-music-mood"; "epid1"]
     = Panic (IndexOutOfRange 2 2).
Proof. repeat split; vm_compute; reflexivity. Qed.

(** ** Per-track fetches *)

(** The fetch loop returns one track per ID or does not return. *)
Lemma fetch_loop_length (w : services) (trackIDs : list spotify.ID)
  (acc tracks : list spotifyTrackData) :
  forRange (fetchTrack w) trackIDs acc = Ret tracks ->
  List.length tracks = List.length acc + List.length trackIDs.
Proof.
  revert acc. induction trackIDs as [|trackID rest IH]; intros acc; simpl.
  - intros [= <-]. lia.
  - unfold fetchTrack at 1.
    destruct (GetAudioFeatures w trackID) as [featurePointer e1].
    destruct (GetAudioAnalysis w trackID) as [analysisPointer e2].
    destruct analysisPointer as [analysis|]; simpl; [|discriminate].
    destruct (index featurePointer 0) as [feature0| |]; simpl; try discriminate.
    destruct feature0 as [features|]; simpl; [|discriminate].
    intros H. apply IH in H. rewrite H, length_app. simpl. lia.
Qed.

(** No track is ever left out: when [getSpotifyData] returns, it returns
    as many tracks as it was given IDs. *)
Lemma getSpotifyData_excludes_nothing (w : services) (trackIDs : list spotify.ID)
  (tracks : list spotifyTrackData) :
  getSpotifyData w trackIDs = Ret tracks ->
  List.length tracks = List.length trackIDs.
Proof.
  unfold getSpotifyData.
  destruct (getConfiguration w) as [conf| |]; simpl; try discriminate.
  destruct (Token w _ _); [discriminate|].
  intros H. now apply fetch_loop_length in H.
Qed.

(** C5: with three tracks of which the second one's two fetches fail, the
    failing track is not left out of an aggregation over the other two:
    [getSpotifyData] dereferences the nil analysis pointer and the process
    panics, in the function alone and in [main]. *)
Theorem getSpotifyData_failed_fetch :
  GetAudioFeatures scenario "tid9" = ([], Some "spotify: not found")
  /\ GetAudioAnalysis scenario "tid9" = (None, Some "spotify: not found")
  /\ getSpotifyData scenario ["tid1"; "tid9"; "tid2"] = Panic NilDereference
  /\ main (withLinks scenario [linkTo "tid1"; linkTo "tid9"; linkTo "tid2"])
          ["episode-music-mood"; "epid1"]
     = Panic NilDereference.
Proof. repeat split; vm_compute; reflexivity. Qed.

(** ** Aggregation over no track *)

Lemma getMood_nil :
  getMood [] = {| ChillFactor := S754_nan; HappinessFactor := S754_nan |}.
Proof. reflexivity. Qed.

(** C2: when no track reaches the aggregation, the end of [main] reports
    the NoMoodData error (the error envelope, status 1): no mood, and so
    no not-a-number value, is written. *)
Theorem no_tracks_NoMoodData :
  printMood (getMood []) = Exit [Text (ErrorObject {| Error := NoMoodData |})] 1
  /\ main (withLinks scenario [ {| Type_ := "ISRC"; Value := "GBUM71029604" |} ])
          ["episode-music-mood"; "epid1"]
     = Exit [Text (ErrorObject {| Error := NoMoodData |})] 1.
Proof. split; vm_compute; reflexivity. Qed.

(** ** Rounding never invents a NaN *)

Section Rounding.
Variables prec emax : Z.

Lemma iter_pos_preserves {A : Type} (P : A -> Prop) (f : A -> A) :
  (forall x, P x -> P (f x)) -> forall p x, P x -> P (iter_pos f p x).
Proof.
  intros Hf. induction p as [p IH|p IH|]; intros x Hx; simpl; auto.
Qed.

Lemma shr_1_nonneg (mrs : shr_record) : (0 <= shr_m mrs)%Z -> (0 <= shr_m (shr_1 mrs))%Z.
Proof.
  destruct mrs as [m r s]. simpl.
  destruct m as [|p|p]; [| |lia]; try destruct p; simpl; lia.
Qed.

Lemma shr_nonneg (mrs : shr_record) (e n : Z) :
  (0 <= shr_m mrs)%Z -> (0 <= shr_m (fst (shr mrs e n)))%Z.
Proof.
  intros H. destruct n as [|p|p]; simpl; try exact H.
  apply (iter_pos_preserves (fun r => (0 <= shr_m r)%Z)); [exact shr_1_nonneg|exact H].
Qed.

Lemma shr_fexp_nonneg (m e : Z) (l : location) :
  (0 <= m)%Z -> (0 <= shr_m (fst (shr_fexp prec emax m e l)))%Z.
Proof.
  intros H. unfold shr_fexp. apply shr_nonneg.
  destruct l as [|[| |]]; exact H.
Qed.

Lemma round_nearest_even_nonneg (m : Z) (l : location) :
  (0 <= m)%Z -> (0 <= round_nearest_even m l)%Z.
Proof.
  intros H. destruct l as [|[| |]]; simpl; try destruct (Z.even m); lia.
Qed.

Lemma binary_round_aux_not_nan (s : bool) (m e : Z) (l : location) :
  (0 <= m)%Z -> binary_round_aux prec emax s m e l <> S754_nan.
Proof.
  intros H. unfold binary_round_aux.
  pose proof (shr_fexp_nonneg m e l H) as H1.
  destruct (shr_fexp prec emax m e l) as [mrs' e']. simpl in H1.
  pose proof (shr_fexp_nonneg _ e' loc_Exact
                (round_nearest_even_nonneg _ (loc_of_shr_record mrs') H1)) as H2.
  destruct (shr_fexp prec emax _ e' loc_Exact) as [mrs'' e'']. simpl in H2.
  destruct (shr_m mrs'') as [|p|p]; [discriminate| |lia].
  destruct (e'' <=? emax - prec)%Z; discriminate.
Qed.

Lemma binary_round_not_nan (s : bool) (m : positive) (e : Z) :
  binary_round prec emax s m e <> S754_nan.
Proof.
  unfold binary_round.
  destruct (shl_align m e _) as [mz ez].
  apply binary_round_aux_not_nan. lia.
Qed.

End Rounding.

Lemma SFeqb_refl (x : spec_float) : SFeqb x x = negb (F32.is_nan x).
Proof.
  unfold SFeqb. destruct x as [s|s| |s m e]; simpl; try reflexivity.
  - now destruct s.
  - rewrite Z.compare_refl, Pos.compare_cont_refl. now destruct s.
Qed.

Lemma IsNaN_of_float32 (x : float32) : F64.IsNaN (F64.of_float32 x) = F32.is_nan x.
Proof.
  unfold F64.IsNaN. rewrite SFeqb_refl, negb_involutive.
  destruct x as [s|s| |s m e]; try reflexivity.
  simpl. pose proof (binary_round_not_nan F64.prec F64.emax s m e) as H.
  destruct (binary_round F64.prec F64.emax s m e); try reflexivity. congruence.
Qed.

Lemma add_comm (x y : float32) : F32.add x y = F32.add y x.
Proof.
  unfold F32.add.
  destruct x as [[]|[]| |sx mx ex], y as [[]|[]| |sy my ey]; try reflexivity.
  unfold SFadd. now rewrite Z.min_comm, Z.add_comm.
Qed.

Lemma add_from_zero_swap (a b : float32) :
  F32.add (F32.add (F32.of_Z 0) a) b = F32.add (F32.add (F32.of_Z 0) b) a.
Proof.
  destruct a as [[]|[]| |sa ma ea], b as [[]|[]| |sb mb eb]; try reflexivity.
  change (F32.add (S754_finite sa ma ea) (S754_finite sb mb eb)
          = F32.add (S754_finite sb mb eb) (S754_finite sa ma ea)).
  apply add_comm.
Qed.

(** ** The guard of [main] *)

Example concrete_tracks_valid :
  forallb validTrack [tid1; tid2; tid3; tidHuge] = true.
Proof. vm_compute. reflexivity. Qed.

(** The guard fires exactly when the chill factor is not a number. *)
Lemma printMood_guard (m : mood) :
  printMood m = returnError NoMoodData <-> F32.is_nan (ChillFactor m) = true.
Proof.
  unfold printMood. destruct (jsonMarshal m) as [moodJSON err].
  rewrite IsNaN_of_float32.
  destruct (F32.is_nan (ChillFactor m)); split; try reflexivity; discriminate.
Qed.

(** C10, as stated, fails: the one-track aggregate of [tidHuge] has a
    chill factor that is a number and a happiness that is not, and the
    process does not write it as a JSON object. *)
Lemma nan_happiness_is_not_printed_as_json :
  ~ (forall m : mood,
        F32.is_nan (ChillFactor m) = false ->
        F32.is_nan (HappinessFactor m) = true ->
        printMood m = Exit [Text (MoodObject m)] 0).
Proof.
  intros H. specialize (H (getMood [tidHuge]) eq_refl eq_refl).
  vm_compute in H. discriminate H.
Qed.

(** C10, amended: the guard before printing looks at the chill factor
    only; for every mood whose chill factor is a number and whose
    happiness is not, no error is reported and the process ends with
    status 0, after printing the empty line left by the marshalling that
    failed on the NaN. *)
Theorem printMood_nan_happiness (m : mood)
  (Hchill : F32.is_nan (ChillFactor m) = false)
  (Hhappy : F32.is_nan (HappinessFactor m) = true) :
  printMood m = Exit [Blank] 0.
Proof.
  unfold printMood, jsonMarshal. rewrite IsNaN_of_float32, Hchill, Hhappy.
  rewrite orb_true_r. reflexivity.
Qed.

Lemma printMood_nan_happiness_witness :
  printMood (getMood [tidHuge]) = Exit [Blank] 0.
Proof.
  apply (printMood_nan_happiness (getMood [tidHuge])); reflexivity.
Defined.

(** ** Order of the tracks *)

Lemma trackMoods_map (tracks : list spotifyTrackData) :
  trackMoods tracks = map trackMood tracks.
Proof. unfold trackMoods. now rewrite fold_left_snoc. Qed.

(** Exchanging the first two tracks leaves the aggregate unchanged. *)
Lemma getMood_swap_first_two (a b : spotifyTrackData) (rest : list spotifyTrackData) :
  getMood (a :: b :: rest) = getMood (b :: a :: rest).
Proof.
  unfold getMood. rewrite !trackMoods_map. simpl map.
  unfold totals. simpl fold_left.
  rewrite (add_from_zero_swap (HappinessFactor (trackMood a))),
          (add_from_zero_swap (ChillFactor (trackMood a))).
  reflexivity.
Qed.

(** C8, as stated, fails: three tracks with everyday feature values whose
    average happiness depends on the order in which they are summed. *)
Lemma getMood_order_dependent :
  Permutation [tid1; tid2; tid3] [tid2; tid3; tid1]
  /\ HappinessFactor (getMood [tid1; tid2; tid3]) = S754_finite false 15502149 (-27)
  /\ HappinessFactor (getMood [tid2; tid3; tid1]) = S754_finite false 15502148 (-27)
  /\ getMood [tid2; tid3; tid1] <> getMood [tid1; tid2; tid3].
Proof.
  split; [|repeat split].
  - apply (Permutation_cons_app [tid2; tid3] [] tid1). rewrite app_nil_r.
    apply Permutation_refl.
  - vm_compute. discriminate.
Qed.

(** C8, amended: for every sequence of at most two tracks, aggregating a
    permutation of it yields the same mood. *)
Theorem getMood_permutation_two (tracks tracks' : list spotifyTrackData)
  (Hperm : Permutation tracks tracks')
  (Hlen : List.length tracks <= 2) :
  getMood tracks' = getMood tracks.
Proof.
  destruct tracks as [|a [|b [|c rest]]]; simpl in Hlen.
  - apply Permutation_nil in Hperm. now subst.
  - apply Permutation_length_1_inv in Hperm. now subst.
  - apply Permutation_length_2_inv in Hperm. destruct Hperm as [->| ->].
    + reflexivity.
    + apply getMood_swap_first_two.
  - lia.
Qed.

Lemma getMood_permutation_two_witness :
  getMood [tid2; tid1] = getMood [tid1; tid2].
Proof.
  apply (getMood_permutation_two [tid1; tid2] [tid2; tid1]).
  - apply perm_swap.
  - simpl. lia.
Defined.

(** * Further properties *)

(** ** Configuration *)

Lemma append_length (s t : string) :
  String.length (String.append s t) = String.length s + String.length t.
Proof. induction s as [|c s IH]; simpl; [reflexivity|now rewrite IH]. Qed.

(** The test of [getConfiguration] on one value: the printed line is
    longer than its newline exactly when the value is not empty. *)
Lemma printed_longer_than_newline (val : string) :
  negb (1 <? String.length (String.append val (String "010" EmptyString)))%nat
  = String.eqb val "".
Proof.
  rewrite append_length. destruct val as [|c val]; simpl; [reflexivity|].
  destruct (String.length val + 1) eqn:E; [lia|reflexivity].
Qed.

Lemma config_check_loop (values : list string) :
  forRange (fun (_ : unit) val =>
              let strVal := String.append val (String "010" EmptyString) in
              if negb (1 <? String.length strVal)%nat
              then returnError "Config incomplete"
              else Ret tt) values tt
  = if forallb (fun val => negb (String.eqb val "")) values
    then Ret tt else returnError "Config incomplete".
Proof.
  induction values as [|val values IH]; simpl; [reflexivity|].
  rewrite printed_longer_than_newline.
  destruct (String.eqb val ""); simpl; [reflexivity|exact IH].
Qed.

Lemma nonempty_iff (s : string) : negb (String.eqb s "") = true <-> s <> "".
Proof.
  rewrite negb_true_iff. split.
  - intros H. now apply String.eqb_neq.
  - intros H. now apply String.eqb_neq.
Qed.

(** X1: [getConfiguration] returns a configuration exactly when the file
    loads and none of its seven fields is empty, and then returns the one
    loaded; a file that loads with an empty field ends the process with
    the error "Config incomplete", a file that does not load with the
    loader's message. *)
Theorem getConfiguration_complete (w : services) :
  (forall conf, getConfiguration w = Ret conf <-> GetConf w = inr conf /\ complete conf)
  /\ (forall conf, GetConf w = inr conf -> ~ complete conf ->
        getConfiguration w = returnError "Config incomplete")
  /\ (forall err, GetConf w = inl err -> getConfiguration w = returnError err).
Proof.
  unfold getConfiguration.
  destruct (GetConf w) as [err|c].
  - split; [|split].
    + intros conf. split; [discriminate|intros [H _]; discriminate H].
    + intros conf H. discriminate H.
    + intros err' [= ->]. reflexivity.
  - rewrite config_check_loop. unfold complete.
    cbn [forallb]. rewrite !andb_true_r.
    split; [|split].
    + intros conf. split.
      * destruct (negb (CertFile c =? "")) eqn:E1; [|discriminate].
        destruct (negb (KeyFile c =? "")) eqn:E2; [|discriminate].
        destruct (negb (SpotifyClientID c =? "")) eqn:E3; [|discriminate].
        destruct (negb (SpotifyClientSecret c =? "")) eqn:E4; [|discriminate].
        destruct (negb (MusicURL c =? "")) eqn:E5; [|discriminate].
        destruct (negb (IBLUrl c =? "")) eqn:E6; [|discriminate].
        destruct (negb (PlaylisterURL c =? "")) eqn:E7; [|discriminate].
        simpl. intros [= <-]. split; [reflexivity|].
        rewrite <- !nonempty_iff. tauto.
      * intros [[= <-] H]. rewrite <- !nonempty_iff in H.
        destruct H as (-> & -> & -> & -> & -> & -> & ->). reflexivity.
    + intros conf [= <-] H. rewrite <- !nonempty_iff in H.
      destruct (negb (CertFile c =? "")); [|reflexivity].
      destruct (negb (KeyFile c =? "")); [|reflexivity].
      destruct (negb (SpotifyClientID c =? "")); [|reflexivity].
      destruct (negb (SpotifyClientSecret c =? "")); [|reflexivity].
      destruct (negb (MusicURL c =? "")); [|reflexivity].
      destruct (negb (IBLUrl c =? "")); [|reflexivity].
      destruct (negb (PlaylisterURL c =? "")); [|reflexivity].
      exfalso. apply H. tauto.
    + intros err H. discriminate H.
Qed.

Lemma getConfiguration_complete_witness :
  getConfiguration scenario = Ret scenarioConf.
Proof.
  apply (proj1 (getConfiguration_complete scenario) scenarioConf).
  split; [reflexivity|]. unfold complete. repeat split; discriminate.
Defined.

(** ** How runs end *)


Lemma bind_stage {A B : Type} (c : outcome A) (k : A -> outcome B) :
  stageOutcome c -> (forall a, stageOutcome (k a)) -> stageOutcome (bind c k).
Proof. destruct c; simpl; auto. Qed.

Lemma forRange_stage {A S : Type} (body : S -> A -> outcome S) (xs : list A) (s : S) :
  (forall s x, stageOutcome (body s x)) -> stageOutcome (forRange body xs s).
Proof.
  intros H. revert s. induction xs as [|x xs IH]; intros s; simpl; [exact I|].
  apply bind_stage; auto.
Qed.

Lemma bind_panicFree {A B : Type} (c : outcome A) (k : A -> outcome B) :
  panicFree c -> (forall a, c = Ret a -> panicFree (k a)) -> panicFree (bind c k).
Proof. destruct c; simpl; auto. Qed.

Lemma forRange_panicFree {A S : Type} (body : S -> A -> outcome S) (xs : list A) (s : S) :
  (forall s x, panicFree (body s x)) -> panicFree (forRange body xs s).
Proof.
  intros H. revert s. induction xs as [|x xs IH]; intros s; simpl; [exact I|].
  apply bind_panicFree; auto.
Qed.

Lemma returnError_stage {A : Type} (message : string) :
  stageOutcome (@returnError A message).
Proof. simpl. split; [reflexivity|]. right. now exists message. Qed.

Lemma getConfiguration_panicFree (w : services) : panicFree (getConfiguration w).
Proof.
  unfold getConfiguration. destruct (GetConf w) as [err|c]; [exact I|].
  apply bind_panicFree; [|intros; exact I].
  apply forRange_panicFree. intros _ val. cbv zeta.
  now destruct (negb _).
Qed.

Lemma getConfiguration_stage (w : services) : stageOutcome (getConfiguration w).
Proof.
  unfold getConfiguration. destruct (GetConf w) as [err|c]; [apply returnError_stage|].
  apply bind_stage; [|intros; exact I].
  apply forRange_stage. intros _ val. cbv zeta.
  destruct (negb _); [apply returnError_stage|exact I].
Qed.

Lemma getVersionID_panicFree (w : services) (episodeID : string) :
  panicFree (getVersionID w episodeID).
Proof.
  unfold getVersionID. apply bind_panicFree; [apply getConfiguration_panicFree|].
  intros conf _. cbv zeta.
  destruct (getEpisodes w _) as [epResp1|]; [|exact I].
  destruct (Episodes epResp1) as [|ep eps]; simpl; [exact I|].
  destruct (Versions ep) as [|v vs]; simpl; exact I.
Qed.

Lemma getRecordIDs_panicFree (w : services) (versionID : string) :
  panicFree (getRecordIDs w versionID).
Proof.
  unfold getRecordIDs. apply bind_panicFree; [apply getConfiguration_panicFree|].
  intros conf _. cbv zeta. now destruct (getSegments w _).
Qed.

Lemma getExternalLinks_panicFree (w : services) (recordID : string) :
  panicFree (getExternalLinks w recordID).
Proof.
  unfold getExternalLinks. apply bind_panicFree; [apply getConfiguration_panicFree|].
  intros conf _. cbv zeta. destruct (negb _); [exact I|].
  now destruct (getMusic w _).
Qed.

Lemma panicFree_stage {A : Type} (o : outcome A) :
  panicFree o -> (forall out st, o = Exit out st -> errorExit out st) -> stageOutcome o.
Proof. destruct o; simpl; auto. contradiction. Qed.

Lemma getVersionID_stage (w : services) (episodeID : string) :
  stageOutcome (getVersionID w episodeID).
Proof.
  unfold getVersionID. apply bind_stage; [apply getConfiguration_stage|].
  intros conf. cbv zeta.
  destruct (getEpisodes w _) as [epResp1|]; [|apply returnError_stage].
  destruct (Episodes epResp1) as [|ep eps]; simpl; [exact I|].
  destruct (Versions ep) as [|v vs]; simpl; exact I.
Qed.

Lemma getRecordIDs_stage (w : services) (versionID : string) :
  stageOutcome (getRecordIDs w versionID).
Proof.
  unfold getRecordIDs. apply bind_stage; [apply getConfiguration_stage|].
  intros conf. cbv zeta.
  destruct (getSegments w _); [exact I|apply returnError_stage].
Qed.

Lemma getExternalLinks_stage (w : services) (recordID : string) :
  stageOutcome (getExternalLinks w recordID).
Proof.
  unfold getExternalLinks. apply bind_stage; [apply getConfiguration_stage|].
  intros conf. cbv zeta.
  destruct (negb _); [simpl; split; [reflexivity|now left]|].
  destruct (getMusic w _); [exact I|apply returnError_stage].
Qed.

Lemma index_stage {A : Type} (xs : list A) : stageOutcome (index xs 0).
Proof. destruct xs; simpl; [right; now left|exact I]. Qed.

Lemma deref_stage {A : Type} (p : option A) : stageOutcome (deref p).
Proof. destruct p; simpl; [exact I|now left]. Qed.

Lemma getSpotifyData_stage (w : services) (trackIDs : list spotify.ID) :
  stageOutcome (getSpotifyData w trackIDs).
Proof.
  unfold getSpotifyData. apply bind_stage; [apply getConfiguration_stage|].
  intros conf. destruct (Token w _ _); [apply returnError_stage|].
  apply forRange_stage. intros tracks trackID. unfold fetchTrack.
  destruct (GetAudioFeatures w trackID) as [featurePointer e1].
  destruct (GetAudioAnalysis w trackID) as [analysisPointer e2].
  apply bind_stage; [apply deref_stage|]. intros analysis.
  apply bind_stage; [apply index_stage|]. intros feature0.
  apply bind_stage; [apply deref_stage|]. intros features. exact I.
Qed.

Lemma selectSpotifyIDs_stage (externalLinks : list externalLink) :
  stageOutcome (selectSpotifyIDs externalLinks).
Proof.
  unfold selectSpotifyIDs. apply forRange_stage. intros ids l. unfold selectLink.
  destruct (Type_ l =? "SPOTIFY"); [|exact I]. cbv zeta.
  apply bind_stage; [|intros; exact I].
  unfold index. destruct (nth_error (Split (Value l)) 2) eqn:E; [exact I|].
  apply nth_error_None in E. simpl. right. right.
  exists (List.length (Split (Value l))). split; [lia|reflexivity].
Qed.

(** X2: the three resolvers and the configuration loader never panic:
    every index in [getVersionID] is guarded by its length test. *)
Theorem resolvers_never_panic (w : services) (id : string) :
  panicFree (getConfiguration w) /\ panicFree (getVersionID w id)
  /\ panicFree (getRecordIDs w id) /\ panicFree (getExternalLinks w id).
Proof.
  repeat split.
  - apply getConfiguration_panicFree.
  - apply getVersionID_panicFree.
  - apply getRecordIDs_panicFree.
  - apply getExternalLinks_panicFree.
Qed.

(** X20: [getVersionID] returns only two errors, "Episode not found" and
    "No Version available", and with either of them the placeholder
    string "nil" in place of a version ID. *)
Theorem getVersionID_error_values
  (w : services) (episodeID s msg : string)
  (H : getVersionID w episodeID = Ret (s, Some msg)) :
  s = "nil" /\ (msg = NotFound \/ msg = NoVersion).
Proof.
  unfold getVersionID in H.
  destruct (getConfiguration w) as [conf| |]; simpl in H; try discriminate.
  destruct (getEpisodes w _) as [epResp1|]; [|discriminate].
  destruct (Episodes epResp1) as [|ep eps]; simpl in H.
  - injection H as <- <-. split; [reflexivity|now left].
  - destruct (Versions ep) as [|v vs]; simpl in H; [|discriminate].
    injection H as <- <-. split; [reflexivity|now right].
Qed.

Lemma getVersionID_error_values_witness :
  "nil" = "nil" /\ (NotFound = NotFound \/ NotFound = NoVersion).
Proof.
  apply (getVersionID_error_values scenario "other" "nil" NotFound). reflexivity.
Defined.



(** ** The last step of main *)

Lemma printMood_three_ways (m : mood) :
  printMood m
  = if F32.is_nan (ChillFactor m) then returnError NoMoodData
    else if isNumber (ChillFactor m) && isNumber (HappinessFactor m)
         then Exit [Text (MoodObject m)] 0
         else Exit [Blank] 0.
Proof.
  unfold printMood, jsonMarshal, isNumber. rewrite IsNaN_of_float32.
  destruct (F32.is_nan (ChillFactor m)), (F32.is_inf (ChillFactor m)),
    (F32.is_nan (HappinessFactor m)), (F32.is_inf (HappinessFactor m)); reflexivity.
Qed.

(** X4: the three ways the last step of [main] ends.  A NaN chill factor
    gives the NoMoodData error; otherwise the mood is printed as JSON when
    both factors are numbers, and an empty line is printed, still with
    status 0, when the happiness is NaN or either factor is infinite. *)
Theorem printMood_cases (m : mood) :
  printMood m
  = if F32.is_nan (ChillFactor m) then returnError NoMoodData
    else if isNumber (ChillFactor m) && isNumber (HappinessFactor m)
         then Exit [Text (MoodObject m)] 0
         else Exit [Blank] 0.
Proof. exact (printMood_three_ways m). Qed.

Lemma printMood_main (m : mood) : mainOutcome (printMood m).
Proof.
  rewrite printMood_three_ways.
  destruct (F32.is_nan (ChillFactor m)).
  - left. apply (@returnError_stage unit).
  - destruct (isNumber (ChillFactor m) && isNumber (HappinessFactor m)) eqn:E.
    + apply andb_true_iff in E. right. split; [reflexivity|]. right. now exists m.
    + right. split; [reflexivity|now left].
Qed.

Lemma bind_main {A : Type} (c : outcome A) (k : A -> outcome unit) :
  stageOutcome c -> (forall a, mainOutcome (k a)) -> mainOutcome (bind c k).
Proof. destruct c; simpl; auto. Qed.

(** X5: every run of [main] ends in one of these ways: a panic of a known
    kind; status 1 with the error envelope or (after [log.Fatal]) nothing
    on standard output; status 0 with one line, which is either empty or a
    mood whose two factors are numbers.  So no NaN or infinity is ever
    written as JSON, and an error envelope never comes with status 0. *)
Theorem main_outcomes (w : services) (Args : list string) :
  mainOutcome (main w Args).
Proof.
  unfold main.
  destruct Args as [|prog [|episodeID [|extra rest]]];
    try (left; apply (@returnError_stage unit)).
  simpl.
  apply bind_main; [apply getVersionID_stage|]. intros [versionID err].
  apply bind_main; [destruct err; [apply returnError_stage|exact I]|]. intros _.
  apply bind_main; [apply getRecordIDs_stage|]. intros recordIDs.
  apply bind_main.
  { apply forRange_stage. intros links recordID.
    apply bind_stage; [apply getExternalLinks_stage|]. intros; exact I. }
  intros externalLinks.
  apply bind_main; [apply selectSpotifyIDs_stage|]. intros spotifyIDs.
  apply bind_main; [apply getSpotifyData_stage|]. intros spotifyFeatures.
  apply printMood_main.
Qed.



(** ** How main composes the stages *)

(** The link loop of [main]: the links of the records, in record order. *)
Lemma link_loop (w : services) (linksOf : string -> list externalLink)
  (recordIDs : list string) (acc : list externalLink) :
  Forall (fun recordID => getExternalLinks w recordID = Ret (linksOf recordID)) recordIDs ->
  forRange (fun externalLinks recordID =>
              externalLinksForRecord <- getExternalLinks w recordID ;;
              Ret (fold_left (fun externalLinks externalLink =>
                                externalLinks ++ [externalLink])
                             externalLinksForRecord externalLinks))
           recordIDs acc
  = Ret (acc ++ flat_map linksOf recordIDs).
Proof.
  intros H. revert acc. induction H as [|r rs Hr _ IH]; intros acc; simpl.
  - now rewrite app_nil_r.
  - rewrite Hr. simpl. rewrite IH.
    rewrite (fold_left_snoc (fun l => l)), map_id, <- app_assoc. reflexivity.
Qed.

Lemma main_stages
  (w : services) (prog episodeID versionID : string) (recordIDs : list string)
  (linksOf : string -> list externalLink) :
  getVersionID w episodeID = Ret (versionID, None) ->
  getRecordIDs w versionID = Ret recordIDs ->
  Forall (fun recordID => getExternalLinks w recordID = Ret (linksOf recordID)) recordIDs ->
  main w [prog; episodeID]
  = (spotifyIDs <- selectSpotifyIDs (flat_map linksOf recordIDs) ;;
     spotifyFeatures <- getSpotifyData w spotifyIDs ;;
     printMood (getMood spotifyFeatures)).
Proof.
  intros Hver Hrec Hlinks.
  unfold main. simpl. rewrite Hver. simpl. rewrite Hrec. simpl.
  rewrite (link_loop w linksOf recordIDs [] Hlinks). reflexivity.
Qed.

(** X7: when the version and the records resolve and every record's links
    are fetched, [main] is the selection over the links of all records,
    concatenated in record order, followed by the fetch of the selected
    tracks and the printing of their mood. *)
Theorem main_composes_stages
  (w : services) (prog episodeID versionID : string) (recordIDs : list string)
  (linksOf : string -> list externalLink)
  (Hver : getVersionID w episodeID = Ret (versionID, None))
  (Hrec : getRecordIDs w versionID = Ret recordIDs)
  (Hlinks : Forall (fun recordID => getExternalLinks w recordID = Ret (linksOf recordID))
                   recordIDs) :
  main w [prog; episodeID]
  = (spotifyIDs <- selectSpotifyIDs (flat_map linksOf recordIDs) ;;
     spotifyFeatures <- getSpotifyData w spotifyIDs ;;
     printMood (getMood spotifyFeatures)).
Proof. exact (main_stages w prog episodeID versionID recordIDs linksOf Hver Hrec Hlinks). Qed.

Lemma main_composes_stages_witness :
  main scenario ["episode-music-mood"; "epid1"]
  = (spotifyIDs <- selectSpotifyIDs (flat_map (fun _ => [linkTo "tid1"]) ["rec1"]) ;;
     spotifyFeatures <- getSpotifyData scenario spotifyIDs ;;
     printMood (getMood spotifyFeatures)).
Proof.
  apply (main_composes_stages scenario "episode-music-mood" "epid1" "vpid1" ["rec1"]
           (fun _ => [linkTo "tid1"])).
  - reflexivity.
  - reflexivity.
  - repeat constructor.
Defined.



(** X9: a key pair that does not load ends [main] with status 1 and
    nothing on standard output, not with the error envelope, as soon as
    there is a first record to look up. *)
Theorem main_key_pair_failure
  (w : services) (prog episodeID versionID recordID : string) (rest : list string)
  (conf : configuration)
  (Hconf : getConfiguration w = Ret conf)
  (Hver : getVersionID w episodeID = Ret (versionID, None))
  (Hrec : getRecordIDs w versionID = Ret (recordID :: rest))
  (Hkey : LoadX509KeyPair w (CertFile conf) (KeyFile conf) = false) :
  main w [prog; episodeID] = Exit [] 1.
Proof.
  unfold main. simpl. rewrite Hver. simpl. rewrite Hrec. simpl.
  unfold getExternalLinks. rewrite Hconf. simpl. rewrite Hkey. reflexivity.
Qed.

Lemma main_key_pair_failure_witness :
  main (withoutKeyPair scenario) ["episode-music-mood"; "epid1"] = Exit [] 1.
Proof.
  apply (main_key_pair_failure (withoutKeyPair scenario) "episode-music-mood" "epid1"
           "vpid1" "rec1" [] scenarioConf); reflexivity.
Defined.

(** ** More on the selection *)

(** What the selection loop returns, when it returns. *)
Lemma selection_returns (links : list externalLink) (acc ids : list spotify.ID) :
  forRange selectLink links acc = Ret ids ->
  ids = acc ++ map thirdSegment (filter isSpotify links)
  /\ Forall (fun l => Type_ l = "SPOTIFY" -> 3 <= List.length (Split (Value l))) links.
Proof.
  revert acc. induction links as [|l links IH]; intros acc; simpl.
  - intros [= <-]. now rewrite app_nil_r.
  - unfold selectLink at 1, isSpotify at 1.
    destruct (Type_ l =? "SPOTIFY") eqn:E; simpl.
    + destruct (Nat.lt_ge_cases (List.length (Split (Value l))) 3) as [Hlt|Hge].
      * rewrite index_out_of_range by lia. discriminate.
      * rewrite (index_in_range _ 2 EmptyString) by lia. simpl.
        intros H. apply IH in H. destruct H as [-> HF]. split.
        -- rewrite <- app_assoc. reflexivity.
        -- constructor; [intros _; exact Hge|exact HF].
    + intros H. apply IH in H. destruct H as [-> HF]. split; [reflexivity|].
      constructor; [|exact HF]. apply String.eqb_neq in E. intros; contradiction.
Qed.

(** X10: the selection returns exactly when every SPOTIFY link has at
    least three colon-delimited segments; links of other types never
    make it fail, however their values look. *)
Theorem selectSpotifyIDs_returns_iff (externalLinks : list externalLink) :
  (exists spotifyIDs, selectSpotifyIDs externalLinks = Ret spotifyIDs)
  <-> Forall (fun l => Type_ l = "SPOTIFY" -> 3 <= List.length (Split (Value l)))
             externalLinks.
Proof.
  split.
  - intros [ids H]. now apply selection_returns in H.
  - intros H. eexists. unfold selectSpotifyIDs. now rewrite selection_loop.
Qed.

Lemma selection_from (links : list externalLink) (acc : list spotify.ID) :
  forRange selectLink links acc
  = (spotifyIDs <- forRange selectLink links [] ;; Ret (acc ++ spotifyIDs)).
Proof.
  revert acc. induction links as [|l links IH]; intros acc; simpl.
  - now rewrite app_nil_r.
  - unfold selectLink at 1 3.
    destruct (Type_ l =? "SPOTIFY"); simpl; [|apply IH].
    destruct (index (Split (Value l)) 2) as [id| |]; simpl; try reflexivity.
    rewrite IH, (IH [id]).
    destruct (forRange selectLink links []); simpl; try reflexivity.
    now rewrite <- app_assoc.
Qed.

Lemma selection_app (links1 links2 : list externalLink) (acc : list spotify.ID) :
  forRange selectLink (links1 ++ links2) acc
  = (ids1 <- forRange selectLink links1 acc ;;
     ids2 <- forRange selectLink links2 [] ;;
     Ret (ids1 ++ ids2)).
Proof.
  revert acc. induction links1 as [|l links IH]; intros acc; simpl.
  - apply selection_from.
  - destruct (selectLink acc l); simpl; auto.
Qed.

(** X11: the selection over two concatenated link lists is the selection
    over the first followed by the selection over the second, the IDs
    appended; so selecting after concatenating the records' links is the
    same as selecting record by record. *)
Theorem selectSpotifyIDs_app (links1 links2 : list externalLink) :
  selectSpotifyIDs (links1 ++ links2)
  = (ids1 <- selectSpotifyIDs links1 ;;
     ids2 <- selectSpotifyIDs links2 ;;
     Ret (ids1 ++ ids2)).
Proof. apply selection_app. Qed.

Lemma selection_filter (links : list externalLink) (acc : list spotify.ID) :
  forRange selectLink links acc = forRange selectLink (filter isSpotify links) acc.
Proof.
  revert acc. induction links as [|l links IH]; intros acc; simpl; [reflexivity|].
  unfold isSpotify at 1. unfold selectLink at 1.
  destruct (Type_ l =? "SPOTIFY") eqn:E; simpl.
  - unfold selectLink at 2. rewrite E.
    destruct (index (Split (Value l)) 2); simpl; auto.
  - apply IH.
Qed.

(** X12: links whose type is not SPOTIFY play no part: dropping them
    first gives the same outcome, a panic included. *)
Theorem selectSpotifyIDs_ignores_other_types (externalLinks : list externalLink) :
  selectSpotifyIDs externalLinks = selectSpotifyIDs (filter isSpotify externalLinks).
Proof. apply selection_filter. Qed.

Lemma Split_segments_have_no_colon (s : string) :
  Forall (fun seg => colons seg = 0) (Split s).
Proof.
  induction s as [|c rest IH]; simpl.
  - constructor; [reflexivity|constructor].
  - destruct (Ascii.eqb c ":") eqn:E.
    + constructor; [reflexivity|exact IH].
    + destruct (Split rest) as [|seg segs]; simpl.
      * constructor; [simpl; now rewrite E|constructor].
      * inversion IH; subst. constructor; [simpl; now rewrite E|assumption].
Qed.

(** X13: every track ID the selection returns is free of colons: from a
    value with more than three segments only the third is taken. *)
Theorem selected_IDs_have_no_colon (externalLinks : list externalLink)
  (spotifyIDs : list spotify.ID)
  (H : selectSpotifyIDs externalLinks = Ret spotifyIDs) :
  Forall (fun spotifyID => colons spotifyID = 0) spotifyIDs.
Proof.
  apply selection_returns in H. destruct H as [-> HF]. simpl.
  apply Forall_forall. intros id Hin. apply in_map_iff in Hin.
  destruct Hin as (l & <- & Hl). apply filter_In in Hl. destruct Hl as [Hl Hs].
  apply isSpotify_iff in Hs. rewrite Forall_forall in HF. specialize (HF l Hl Hs).
  pose proof (Split_segments_have_no_colon (Value l)) as Hc.
  rewrite Forall_forall in Hc. apply Hc. unfold thirdSegment. apply nth_In. lia.
Qed.

Lemma selected_IDs_have_no_colon_witness :
  Forall (fun spotifyID => colons spotifyID = 0) ["tid1"; "c"].
Proof.
  apply (selected_IDs_have_no_colon
           [linkTo "tid1"; isrcLink; {| Type_ := "SPOTIFY"; Value := "a:b:c:d:e" |}]).
  reflexivity.
Defined.

(** ** More on the fetches *)

Lemma fetchTrack_cases (w : services) (tracks : list spotifyTrackData)
  (trackID : spotify.ID) :
  match fetched w trackID with
  | Some track => fetchTrack w tracks trackID = Ret (tracks ++ [track])
  | None => fetchTrack w tracks trackID = Panic NilDereference
            \/ fetchTrack w tracks trackID = Panic (IndexOutOfRange 0 0)
  end.
Proof.
  unfold fetched, fetchTrack.
  destruct (GetAudioFeatures w trackID) as [featurePointer e1].
  destruct (GetAudioAnalysis w trackID) as [analysisPointer e2]. simpl.
  destruct analysisPointer as [analysis|]; simpl; [|now left].
  destruct featurePointer as [|[features|] more]; simpl; auto.
Qed.

Lemma fetch_loop (w : services) (trackIDs : list spotify.ID)
  (acc : list spotifyTrackData) :
  match fetchedAll w trackIDs with
  | Some tracks => forRange (fetchTrack w) trackIDs acc = Ret (acc ++ tracks)
  | None => forRange (fetchTrack w) trackIDs acc = Panic NilDereference
            \/ forRange (fetchTrack w) trackIDs acc = Panic (IndexOutOfRange 0 0)
  end.
Proof.
  revert acc. induction trackIDs as [|trackID rest IH]; intros acc; simpl.
  - now rewrite app_nil_r.
  - pose proof (fetchTrack_cases w acc trackID) as Hc.
    destruct (fetched w trackID) as [track|].
    + rewrite Hc. simpl. specialize (IH (acc ++ [track])).
      destruct (fetchedAll w rest) as [tracks|].
      * rewrite IH, <- app_assoc. reflexivity.
      * exact IH.
    + destruct Hc as [-> | ->]; simpl; auto.
Qed.

(** X14: once the configuration and the token are there, [getSpotifyData]
    returns exactly when every track has a non-nil analysis and a non-nil
    first feature bundle, and then returns these bundles, one track per ID
    in ID order; in every other case it panics. *)
Theorem getSpotifyData_returns_fetched
  (w : services) (conf : configuration) (trackIDs : list spotify.ID)
  (Hconf : getConfiguration w = Ret conf)
  (Htoken : Token w (SpotifyClientID conf) (SpotifyClientSecret conf) = None) :
  (forall tracks, getSpotifyData w trackIDs = Ret tracks
                  <-> fetchedAll w trackIDs = Some tracks)
  /\ (fetchedAll w trackIDs = None ->
      getSpotifyData w trackIDs = Panic NilDereference
      \/ getSpotifyData w trackIDs = Panic (IndexOutOfRange 0 0)).
Proof.
  unfold getSpotifyData. rewrite Hconf. simpl. rewrite Htoken.
  pose proof (fetch_loop w trackIDs []) as H. simpl in H.
  destruct (fetchedAll w trackIDs) as [found|].
  - rewrite H. split; [|discriminate]. intros tracks. split; congruence.
  - split; [|intros _; exact H].
    intros tracks. split; [|discriminate]. destruct H as [-> | ->]; discriminate.
Qed.

Lemma getSpotifyData_returns_fetched_witness :
  (forall tracks, getSpotifyData scenario ["tid2"; "tid1"; "tid2"] = Ret tracks
                  <-> fetchedAll scenario ["tid2"; "tid1"; "tid2"] = Some tracks)
  /\ (fetchedAll scenario ["tid2"; "tid1"; "tid2"] = None ->
      getSpotifyData scenario ["tid2"; "tid1"; "tid2"] = Panic NilDereference
      \/ getSpotifyData scenario ["tid2"; "tid1"; "tid2"] = Panic (IndexOutOfRange 0 0)).
Proof.
  apply (getSpotifyData_returns_fetched scenario scenarioConf ["tid2"; "tid1"; "tid2"]);
    reflexivity.
Defined.

(** X15: the token is requested before the loop over the tracks: when
    the request fails, [getSpotifyData] reports "couldn't get token: ..."
    for every list of track IDs, the empty one included; so a run whose
    selection returns, even with no SPOTIFY link at all, ends with the
    token error and not with NoMoodData. *)
Theorem token_failure
  (w : services) (prog episodeID versionID : string) (recordIDs : list string)
  (linksOf : string -> list externalLink) (conf : configuration) (err : string)
  (spotifyIDs : list spotify.ID)
  (Hconf : getConfiguration w = Ret conf)
  (Htoken : Token w (SpotifyClientID conf) (SpotifyClientSecret conf) = Some err)
  (Hver : getVersionID w episodeID = Ret (versionID, None))
  (Hrec : getRecordIDs w versionID = Ret recordIDs)
  (Hlinks : Forall (fun recordID => getExternalLinks w recordID = Ret (linksOf recordID))
                   recordIDs)
  (Hsel : selectSpotifyIDs (flat_map linksOf recordIDs) = Ret spotifyIDs) :
  (forall trackIDs,
      getSpotifyData w trackIDs = returnError (String.append "couldn't get token: " err))
  /\ main w [prog; episodeID] = returnError (String.append "couldn't get token: " err).
Proof.
  assert (H : forall trackIDs,
             getSpotifyData w trackIDs
             = returnError (String.append "couldn't get token: " err)).
  { intros trackIDs. unfold getSpotifyData. rewrite Hconf. simpl. now rewrite Htoken. }
  split; [exact H|].
  rewrite (main_stages w prog episodeID versionID recordIDs linksOf Hver Hrec Hlinks).
  rewrite Hsel. simpl. now rewrite H.
Qed.

Lemma token_failure_witness :
  (forall trackIDs,
      getSpotifyData (withTokenError (withLinks scenario [isrcLink]) "oauth2: cannot fetch token")
                     trackIDs
      = returnError "couldn't get token: oauth2: cannot fetch token")
  /\ main (withTokenError (withLinks scenario [isrcLink]) "oauth2: cannot fetch token")
          ["episode-music-mood"; "epid1"]
     = returnError "couldn't get token: oauth2: cannot fetch token".
Proof.
  apply (token_failure
           (withTokenError (withLinks scenario [isrcLink]) "oauth2: cannot fetch token")
           "episode-music-mood" "epid1" "vpid1" ["rec1"] (fun _ => [isrcLink])
           scenarioConf "oauth2: cannot fetch token" []); try reflexivity.
  repeat constructor.
Defined.

(** X16: when the version and the records resolve, every record's links
    are fetched and none of them is a SPOTIFY link, and the token is
    granted, [main] reports NoMoodData; zero records is the special case
    of no link at all. *)
Theorem main_without_spotify_links
  (w : services) (prog episodeID versionID : string) (recordIDs : list string)
  (linksOf : string -> list externalLink) (conf : configuration)
  (Hconf : getConfiguration w = Ret conf)
  (Htoken : Token w (SpotifyClientID conf) (SpotifyClientSecret conf) = None)
  (Hver : getVersionID w episodeID = Ret (versionID, None))
  (Hrec : getRecordIDs w versionID = Ret recordIDs)
  (Hlinks : Forall (fun recordID => getExternalLinks w recordID = Ret (linksOf recordID))
                   recordIDs)
  (Hnone : filter isSpotify (flat_map linksOf recordIDs) = []) :
  main w [prog; episodeID] = returnError NoMoodData.
Proof.
  rewrite (main_stages w prog episodeID versionID recordIDs linksOf Hver Hrec Hlinks).
  unfold selectSpotifyIDs. rewrite selection_filter, Hnone. simpl.
  unfold getSpotifyData. rewrite Hconf. simpl. rewrite Htoken. reflexivity.
Qed.

Lemma main_without_spotify_links_witness :
  main (withLinks scenario [isrcLink; isrcLink]) ["episode-music-mood"; "epid1"]
  = returnError NoMoodData.
Proof.
  apply (main_without_spotify_links (withLinks scenario [isrcLink; isrcLink])
           "episode-music-mood" "epid1" "vpid1" ["rec1"]
           (fun _ => [isrcLink; isrcLink]) scenarioConf); try reflexivity.
  repeat constructor.
Defined.

(** ** More on the aggregation *)

Lemma trackMood_same_inputs (t t' : spotifyTrackData) :
  sameMoodInputs t t' -> trackMood t = trackMood t'.
Proof.
  intros (Hv & Hd & He & Hl & Hlo & Ht). unfold trackMood.
  now rewrite Hv, Hd, He, Hl, Hlo, Ht.
Qed.

(** X17: [getMood] reads six numbers of a track and nothing else: two
    track lists that agree, position by position, on valence,
    danceability, energy, liveness, loudness of the features and on the
    tempo of the analysis have the same mood, whatever the tempo of the
    features and the loudness of the analysis are. *)
Theorem getMood_reads_six_inputs (tracks tracks' : list spotifyTrackData)
  (H : Forall2 sameMoodInputs tracks tracks') :
  getMood tracks' = getMood tracks.
Proof.
  unfold getMood. rewrite !trackMoods_map.
  replace (map trackMood tracks') with (map trackMood tracks); [reflexivity|].
  induction H as [|t t' ts ts' Ht _ IH]; simpl; [reflexivity|].
  now rewrite IH, (trackMood_same_inputs t t' Ht).
Qed.

Lemma getMood_reads_six_inputs_witness :
  getMood [mkTrack (F32.of_ratio 8 10) (F32.of_ratio 6 10) (F32.of_ratio 7 10)
                   (F32.of_ratio 5 10) (F32.of_Z (-10)) (F64.of_Z 130)]
  = getMood [ {| Features := {| spotify.Danceability := F32.of_ratio 6 10;
                               spotify.Energy := F32.of_ratio 7 10;
                               spotify.Liveness := F32.of_ratio 5 10;
                               spotify.Loudness := F32.of_Z (-10);
                               spotify.Tempo := F32.of_Z 60;
                               spotify.Valence := F32.of_ratio 8 10 |};
                Analysis := {| spotify.Track :=
                                 {| spotify.TrackLoudness := F64.of_Z (-3);
                                    spotify.TrackTempo := F64.of_Z 130 |} |} |} ].
Proof.
  apply getMood_reads_six_inputs. repeat constructor.
Defined.

Lemma add_nan_l (x : float32) : F32.add S754_nan x = S754_nan.
Proof. reflexivity. Qed.

Lemma add_nan_r (x : float32) : F32.add x S754_nan = S754_nan.
Proof. now destruct x. Qed.

Lemma div_nan_l (x : float32) : F32.div S754_nan x = S754_nan.
Proof. reflexivity. Qed.

Lemma is_nan_eq (x : float32) : F32.is_nan x = true <-> x = S754_nan.
Proof. destruct x; simpl; split; congruence. Qed.

(** Once a total is NaN it stays NaN, and a NaN summand makes it NaN. *)
Lemma totals_from (moods : list mood) (h c : float32) :
  (h = S754_nan \/ Exists (fun m => HappinessFactor m = S754_nan) moods ->
   fst (fold_left (fun '(totalHappiness, totalChillFactor) mood =>
                     (F32.add totalHappiness (HappinessFactor mood),
                      F32.add totalChillFactor (ChillFactor mood)))
                  moods (h, c)) = S754_nan)
  /\ (c = S754_nan \/ Exists (fun m => ChillFactor m = S754_nan) moods ->
      snd (fold_left (fun '(totalHappiness, totalChillFactor) mood =>
                        (F32.add totalHappiness (HappinessFactor mood),
                         F32.add totalChillFactor (ChillFactor mood)))
                     moods (h, c)) = S754_nan).
Proof.
  revert h c. induction moods as [|m moods IH]; intros h c; simpl.
  - split; intros [H|H]; try assumption; inversion H.
  - destruct (IH (F32.add h (HappinessFactor m)) (F32.add c (ChillFactor m))) as [IHh IHc].
    split; intros [H|H].
    + apply IHh. left. subst h. apply add_nan_l.
    + inversion H as [? ? Hm|? ? Hm]; subst.
      * apply IHh. left. rewrite Hm. apply add_nan_r.
      * apply IHh. now right.
    + apply IHc. left. subst c. apply add_nan_l.
    + inversion H as [? ? Hm|? ? Hm]; subst.
      * apply IHc. left. rewrite Hm. apply add_nan_r.
      * apply IHc. now right.
Qed.

Lemma totals_nan (moods : list mood) :
  (Exists (fun m => HappinessFactor m = S754_nan) moods -> fst (totals moods) = S754_nan)
  /\ (Exists (fun m => ChillFactor m = S754_nan) moods -> snd (totals moods) = S754_nan).
Proof.
  unfold totals.
  destruct (totals_from moods (F32.of_Z 0) (F32.of_Z 0)) as [Hh Hc].
  split; intros H; [apply Hh|apply Hc]; now right.
Qed.

Lemma getMood_nan (tracks : list spotifyTrackData) (t : spotifyTrackData) :
  In t tracks ->
  (ChillFactor (trackMood t) = S754_nan -> ChillFactor (getMood tracks) = S754_nan)
  /\ (HappinessFactor (trackMood t) = S754_nan ->
      HappinessFactor (getMood tracks) = S754_nan).
Proof.
  intros Hin.
  pose proof (totals_nan (map trackMood tracks)) as [Hh Hc].
  unfold getMood. rewrite trackMoods_map.
  destruct (totals (map trackMood tracks)) as [h c].
  cbn [fst snd] in Hh, Hc. cbn [ChillFactor HappinessFactor].
  split; intros Hnan.
  - rewrite Hc; [reflexivity|]. apply Exists_exists. exists (trackMood t).
    split; [now apply in_map|exact Hnan].
  - rewrite Hh; [reflexivity|]. apply Exists_exists. exists (trackMood t).
    split; [now apply in_map|exact Hnan].
Qed.

(** X18: one track poisons the average.  If the chill factor of any track
    is NaN, the averaged chill factor is NaN and the run reports
    NoMoodData, however many good tracks there are. *)
Theorem getMood_nan_chill_track (tracks : list spotifyTrackData) (t : spotifyTrackData)
  (Hin : In t tracks)
  (Hnan : F32.is_nan (ChillFactor (trackMood t)) = true) :
  F32.is_nan (ChillFactor (getMood tracks)) = true
  /\ printMood (getMood tracks) = returnError NoMoodData.
Proof.
  apply is_nan_eq in Hnan.
  destruct (getMood_nan tracks t Hin) as [Hc _]. specialize (Hc Hnan).
  split; [now apply is_nan_eq|]. apply printMood_guard. now apply is_nan_eq.
Qed.

Lemma getMood_nan_chill_track_witness :
  F32.is_nan (ChillFactor (getMood [tid1; tidFast; tid2])) = true
  /\ printMood (getMood [tid1; tidFast; tid2]) = returnError NoMoodData.
Proof.
  apply (getMood_nan_chill_track [tid1; tidFast; tid2] tidFast).
  - simpl. tauto.
  - vm_compute. reflexivity.
Defined.

(** X19: if the happiness of any track is NaN, the averaged happiness is
    NaN and no mood is ever printed: the run ends with NoMoodData or with
    an empty line and status 0. *)
Theorem getMood_nan_happiness_track (tracks : list spotifyTrackData)
  (t : spotifyTrackData)
  (Hin : In t tracks)
  (Hnan : F32.is_nan (HappinessFactor (trackMood t)) = true) :
  F32.is_nan (HappinessFactor (getMood tracks)) = true
  /\ (printMood (getMood tracks) = returnError NoMoodData
      \/ printMood (getMood tracks) = Exit [Blank] 0).
Proof.
  apply is_nan_eq in Hnan.
  destruct (getMood_nan tracks t Hin) as [_ Hh]. specialize (Hh Hnan).
  split; [now apply is_nan_eq|].
  rewrite printMood_three_ways. unfold isNumber. rewrite Hh.
  destruct (F32.is_nan (ChillFactor (getMood tracks))); [now left|right].
  cbn [F32.is_nan negb andb]. now rewrite andb_false_r.
Qed.

Lemma getMood_nan_happiness_track_witness :
  F32.is_nan (HappinessFactor (getMood [tid1; tidHuge; tid2])) = true
  /\ (printMood (getMood [tid1; tidHuge; tid2]) = returnError NoMoodData
      \/ printMood (getMood [tid1; tidHuge; tid2]) = Exit [Blank] 0).
Proof.
  apply (getMood_nan_happiness_track [tid1; tidHuge; tid2] tidHuge).
  - simpl. tauto.
  - vm_compute. reflexivity.
Defined.

Example tidFast_chill_is_nan :
  validTrack tidFast = true /\ F32.is_nan (ChillFactor (trackMood tidFast)) = true.
Proof. split; vm_compute; reflexivity. Qed.
